(** * BrailleConverter: text to Braille dot patterns

    A shallow embedding of [src/converters/BrailleConverter.ts] (class
    [BrailleConverter]) and the properties of its conversion engine:
    [dotsToUnicode], [detectLanguage] and [convertToBraille] with its four
    per-script helpers.

    Data representation.
    - A JavaScript string is its sequence of UTF-16 code units, [list Z].
      String equality is list equality, a regular expression without the
      [u] flag sees code units, and [for (const char of text)] walks the
      string by code point ([chars] below).
    - [number[]] dot arrays are [list Z].  The tables only hold the integers
      1..8; any other number falls through the [switch] of [dotsToUnicode].
    - The four object literals are finite maps from strings to dot arrays
      ([gmap]), built from their entries in source order. *)

From stdpp Require Import base numbers list gmap.

Open Scope Z_scope.

Module BrailleConverter.

(** ** Strings *)

Abbreviation jsstring := (list Z).

(** [String.fromCharCode(code)]: one code unit, [ToUint16 code]. *)
Definition fromCharCode (code : Z) : jsstring := [code mod 65536].

Definition isLeadSurrogate (c : Z) : bool := (0xD800 <=? c) && (c <=? 0xDBFF).
Definition isTrailSurrogate (c : Z) : bool := (0xDC00 <=? c) && (c <=? 0xDFFF).

(** The string iterator behind [for (const char of text)]: a lead surrogate
    directly followed by a trail surrogate is yielded as one two-unit
    string, every other code unit on its own. *)
Fixpoint chars (text : jsstring) : list jsstring :=
  match text with
  | [] => []
  | c :: rest =>
      match rest with
      | d :: rest' =>
          if isLeadSurrogate c && isTrailSurrogate d
          then [c; d] :: chars rest'
          else [c] :: chars rest
      | [] => [[c]]
      end
  end.

(** [/[...]/.test(s)] for a pattern that is a single character class: some
    code unit of [s] lies in the class. *)
Definition test (class : Z -> bool) (s : jsstring) : bool := existsb class s.

Definition inRange (lo hi c : Z) : bool := (lo <=? c) && (c <=? hi).

(** [/[가-힣]/]: the code units U+AC00 .. U+D7A3. *)
Definition koreanPattern (c : Z) : bool := inRange 0xAC00 0xD7A3 c.
(** [/[\u3040-\u309F\u30A0-\u30FF]/]: hiragana and katakana. *)
Definition japanesePattern (c : Z) : bool :=
  inRange 0x3040 0x309F c || inRange 0x30A0 0x30FF c.
(** [/[a-zA-Z]/]. *)
Definition englishPattern (c : Z) : bool :=
  inRange 97 122 c || inRange 65 90 c.
(** [/[a-zA-Z0-9]/]. *)
Definition alnumPattern (c : Z) : bool :=
  inRange 97 122 c || inRange 65 90 c || inRange 48 57 c.

(** ** Records *)

Record BraillePattern := mkPattern {
  char : jsstring;      (* the source character *)
  unicode : jsstring;   (* the Braille character, or a literal blank *)
  dots : list Z         (* dot numbers *)
}.

Inductive Language := korean | english | japanese | mixed.

(** ** dotsToUnicode *)

(** One pass of the [switch] in the loop: what is added to [code]. *)
Definition dotBit (dot : Z) : Z :=
  match dot with
  | 1 => 0x01
  | 2 => 0x02
  | 3 => 0x04
  | 4 => 0x08
  | 5 => 0x10
  | 6 => 0x20
  | 7 => 0x40
  | 8 => 0x80
  | _ => 0
  end.

Definition dotsToUnicode (ds : list Z) : jsstring :=
  let code := fold_left (fun code dot => code + dotBit dot) ds 0x2800 in
  fromCharCode code.

(** ** detectLanguage *)

Definition detectLanguage (text : jsstring) : Language :=
  let hasKorean := test koreanPattern text in
  let hasJapanese := test japanesePattern text in
  let hasEnglish := test englishPattern text in
  let count := length (filter (fun b : bool => b = true) [hasKorean; hasJapanese; hasEnglish]) in
  if decide (1 < count)%nat then mixed
  else if hasKorean then korean
  else if hasJapanese then japanese
  else if hasEnglish then english
  else english.

(** ** Lookup tables

    A key is looked up with [table[char]].  The keys reaching a lookup are
    the strings yielded by [chars], of one or two code units, and no
    property inherited from [Object.prototype] has so short a name, so the
    lookup is the lookup among the literal's own entries. *)

(** [koreanBrailleMap] of [convertKoreanChar]: consonant jamo, vowel jamo,
    then the five hard-coded syllables, in source order. *)
Definition koreanBrailleMap_entries : list (list Z * list Z) :=
  [ ([0x3131], [1; 4]); ([0x3134], [1; 4; 5]);  (* ㄱ ㄴ *)
    ([0x3137], [2; 4]); ([0x3139], [5]);  (* ㄷ ㄹ *)
    ([0x3141], [1; 5]); ([0x3142], [1; 2]);  (* ㅁ ㅂ *)
    ([0x3145], [6]); ([0x3147], [1; 2; 4; 5; 6]);  (* ㅅ ㅇ *)
    ([0x3148], [4]); ([0x314A], [5; 6]);  (* ㅈ ㅊ *)
    ([0x314B], [1; 2; 5]); ([0x314C], [1; 2; 5; 6]);  (* ㅋ ㅌ *)
    ([0x314D], [1; 4; 5; 6]); ([0x314E], [2; 5; 6]);  (* ㅍ ㅎ *)
    ([0x314F], [1; 2; 6]); ([0x3151], [3; 4; 5]);  (* ㅏ ㅑ *)
    ([0x3153], [2; 3; 4]); ([0x3155], [1; 3; 6]);  (* ㅓ ㅕ *)
    ([0x3157], [1; 3; 6]); ([0x315B], [3; 4; 6]);  (* ㅗ ㅛ *)
    ([0x315C], [1; 3; 4]); ([0x3160], [1; 3; 4; 6]);  (* ㅜ ㅠ *)
    ([0x3161], [2; 4; 6]); ([0x3163], [1; 3; 5]);  (* ㅡ ㅣ *)
    ([0xC548], [1; 2; 4; 5; 6]); ([0xB155], [1; 4; 5; 1; 2; 6]);  (* 안 녕 *)
    ([0xD558], [2; 5; 6; 1; 2; 6]); ([0xC138], [6; 2; 3; 4]);  (* 하 세 *)
    ([0xC694], [3; 4; 6])  (* 요 *)
  ].

Definition koreanBrailleMap : gmap (list Z) (list Z) :=
  list_to_map koreanBrailleMap_entries.

(** [englishBrailleMap] of [convertEnglishChar]: lowercase, uppercase (dot 6
    written in front), digits (dots 3,4,5,6 written in front). *)
Definition englishBrailleMap_entries : list (list Z * list Z) :=
  [ ([97], [1]); ([98], [1; 2]);  (* a b *)
    ([99], [1; 4]); ([100], [1; 4; 5]);  (* c d *)
    ([101], [1; 5]); ([102], [1; 2; 4]);  (* e f *)
    ([103], [1; 2; 4; 5]); ([104], [1; 2; 5]);  (* g h *)
    ([105], [2; 4]); ([106], [2; 4; 5]);  (* i j *)
    ([107], [1; 3]); ([108], [1; 2; 3]);  (* k l *)
    ([109], [1; 3; 4]); ([110], [1; 3; 4; 5]);  (* m n *)
    ([111], [1; 3; 5]); ([112], [1; 2; 3; 4]);  (* o p *)
    ([113], [1; 2; 3; 4; 5]); ([114], [1; 2; 3; 5]);  (* q r *)
    ([115], [2; 3; 4]); ([116], [2; 3; 4; 5]);  (* s t *)
    ([117], [1; 3; 6]); ([118], [1; 2; 3; 6]);  (* u v *)
    ([119], [2; 4; 5; 6]); ([120], [1; 3; 4; 6]);  (* w x *)
    ([121], [1; 3; 4; 5; 6]); ([122], [1; 3; 5; 6]);  (* y z *)
    ([65], [6; 1]); ([66], [6; 1; 2]);  (* A B *)
    ([67], [6; 1; 4]); ([68], [6; 1; 4; 5]);  (* C D *)
    ([69], [6; 1; 5]); ([70], [6; 1; 2; 4]);  (* E F *)
    ([71], [6; 1; 2; 4; 5]); ([72], [6; 1; 2; 5]);  (* G H *)
    ([73], [6; 2; 4]); ([74], [6; 2; 4; 5]);  (* I J *)
    ([75], [6; 1; 3]); ([76], [6; 1; 2; 3]);  (* K L *)
    ([77], [6; 1; 3; 4]); ([78], [6; 1; 3; 4; 5]);  (* M N *)
    ([79], [6; 1; 3; 5]); ([80], [6; 1; 2; 3; 4]);  (* O P *)
    ([81], [6; 1; 2; 3; 4; 5]); ([82], [6; 1; 2; 3; 5]);  (* Q R *)
    ([83], [6; 2; 3; 4]); ([84], [6; 2; 3; 4; 5]);  (* S T *)
    ([85], [6; 1; 3; 6]); ([86], [6; 1; 2; 3; 6]);  (* U V *)
    ([87], [6; 2; 4; 5; 6]); ([88], [6; 1; 3; 4; 6]);  (* W X *)
    ([89], [6; 1; 3; 4; 5; 6]); ([90], [6; 1; 3; 5; 6]);  (* Y Z *)
    ([49], [3; 4; 5; 6; 1]); ([50], [3; 4; 5; 6; 1; 2]);  (* 1 2 *)
    ([51], [3; 4; 5; 6; 1; 4]); ([52], [3; 4; 5; 6; 1; 4; 5]);  (* 3 4 *)
    ([53], [3; 4; 5; 6; 1; 5]); ([54], [3; 4; 5; 6; 1; 2; 4]);  (* 5 6 *)
    ([55], [3; 4; 5; 6; 1; 2; 4; 5]); ([56], [3; 4; 5; 6; 1; 2; 5]);  (* 7 8 *)
    ([57], [3; 4; 5; 6; 2; 4]); ([48], [3; 4; 5; 6; 2; 4; 5])  (* 9 0 *)
  ].

Definition englishBrailleMap : gmap (list Z) (list Z) :=
  list_to_map englishBrailleMap_entries.

(** [japaneseBrailleMap] of [convertJapaneseChar]: hiragana, then katakana. *)
Definition japaneseBrailleMap_entries : list (list Z * list Z) :=
  [ ([0x3042], [1]); ([0x3044], [1; 2]);  (* あ い *)
    ([0x3046], [1; 4]); ([0x3048], [1; 2; 4]);  (* う え *)
    ([0x304A], [2; 4]); ([0x304B], [1; 6]);  (* お か *)
    ([0x304D], [1; 2; 6]); ([0x304F], [1; 4; 6]);  (* き く *)
    ([0x3051], [1; 2; 4; 6]); ([0x3053], [2; 4; 6]);  (* け こ *)
    ([0x3055], [1; 5; 6]); ([0x3057], [1; 2; 5; 6]);  (* さ し *)
    ([0x3059], [1; 4; 5; 6]); ([0x305B], [1; 2; 4; 5; 6]);  (* す せ *)
    ([0x305D], [2; 4; 5; 6]); ([0x305F], [1; 3; 6]);  (* そ た *)
    ([0x3061], [1; 2; 3; 6]); ([0x3064], [1; 3; 4; 6]);  (* ち つ *)
    ([0x3066], [1; 2; 3; 4; 6]); ([0x3068], [2; 3; 4; 6]);  (* て と *)
    ([0x306A], [1; 3; 5; 6]); ([0x306B], [1; 2; 3; 5; 6]);  (* な に *)
    ([0x306C], [1; 3; 4; 5; 6]); ([0x306D], [1; 2; 3; 4; 5; 6]);  (* ぬ ね *)
    ([0x306E], [2; 3; 4; 5; 6]); ([0x306F], [1; 3]);  (* の は *)
    ([0x3072], [1; 2; 3]); ([0x3075], [1; 3; 4]);  (* ひ ふ *)
    ([0x3078], [1; 2; 3; 4]); ([0x307B], [2; 3; 4]);  (* へ ほ *)
    ([0x307E], [1; 3; 5]); ([0x307F], [1; 2; 3; 5]);  (* ま み *)
    ([0x3080], [1; 3; 4; 5]); ([0x3081], [1; 2; 3; 4; 5]);  (* む め *)
    ([0x3082], [2; 3; 4; 5]); ([0x3084], [3; 4]);  (* も や *)
    ([0x3086], [3; 4; 6]); ([0x3088], [3; 4; 5]);  (* ゆ よ *)
    ([0x3089], [1; 5]); ([0x308A], [1; 2; 5]);  (* ら り *)
    ([0x308B], [1; 4; 5]); ([0x308C], [1; 2; 4; 5]);  (* る れ *)
    ([0x308D], [2; 4; 5]); ([0x308F], [3]);  (* ろ わ *)
    ([0x3093], [3; 5; 6]); ([0x30A2], [1]);  (* ん ア *)
    ([0x30A4], [1; 2]); ([0x30A6], [1; 4]);  (* イ ウ *)
    ([0x30A8], [1; 2; 4]); ([0x30AA], [2; 4]);  (* エ オ *)
    ([0x30AB], [1; 6]); ([0x30AD], [1; 2; 6]);  (* カ キ *)
    ([0x30AF], [1; 4; 6]); ([0x30B1], [1; 2; 4; 6]);  (* ク ケ *)
    ([0x30B3], [2; 4; 6])  (* コ *)
  ].

Definition japaneseBrailleMap : gmap (list Z) (list Z) :=
  list_to_map japaneseBrailleMap_entries.

(** [punctuationMap] of [convertPunctuation]. *)
Definition punctuationMap_entries : list (list Z * list Z) :=
  [ ([46], [2; 5; 6]); ([44], [2]);  (* full stop, comma *)
    ([63], [2; 6]); ([33], [2; 3; 5]);  (* question mark, exclamation mark *)
    ([58], [2; 5]); ([59], [2; 3]);  (* colon, semicolon *)
    ([45], [3; 6]); ([40], [2; 3; 6]);  (* hyphen, left parenthesis *)
    ([41], [3; 5; 6]); ([34], [2; 3; 6]);  (* right parenthesis, double quote *)
    ([39], [3])  (* apostrophe *)
  ].

Definition punctuationMap : gmap (list Z) (list Z) :=
  list_to_map punctuationMap_entries.

(** ** Per-script helpers *)

Definition convertKoreanChar (ch : jsstring) : option BraillePattern :=
  match koreanBrailleMap !! ch with
  | Some ds => Some {| char := ch; unicode := dotsToUnicode ds; dots := ds |}
  | None => None
  end.

Definition convertEnglishChar (ch : jsstring) : option BraillePattern :=
  match englishBrailleMap !! ch with
  | Some ds => Some {| char := ch; unicode := dotsToUnicode ds; dots := ds |}
  | None => None
  end.

Definition convertJapaneseChar (ch : jsstring) : option BraillePattern :=
  match japaneseBrailleMap !! ch with
  | Some ds => Some {| char := ch; unicode := dotsToUnicode ds; dots := ds |}
  | None => None
  end.

Definition convertPunctuation (ch : jsstring) : option BraillePattern :=
  match punctuationMap !! ch with
  | Some ds => Some {| char := ch; unicode := dotsToUnicode ds; dots := ds |}
  | None => None
  end.

(** ** convertToBraille *)

(** The record for an unconvertible character. *)
Definition fallback (ch : jsstring) : BraillePattern :=
  {| char := ch; unicode := dotsToUnicode [2; 6]; dots := [2; 6] |}.

(** The script switch of the loop body: which helper is asked. *)
Definition classify (ch : jsstring) : option BraillePattern :=
  if test koreanPattern ch then convertKoreanChar ch
  else if test japanesePattern ch then convertJapaneseChar ch
  else if test alnumPattern ch then convertEnglishChar ch
  else convertPunctuation ch.

(** One turn of the loop: the record pushed for [ch]. *)
Definition convertChar (ch : jsstring) : BraillePattern :=
  if bool_decide (ch = [32]) || bool_decide (ch = [9]) then
    {| char := ch; unicode := [32]; dots := [] |}
  else if bool_decide (ch = [10]) then
    {| char := ch; unicode := [10]; dots := [] |}
  else
    match classify ch with
    | Some pattern => pattern
    | None => fallback ch
    end.

(** [language] is optional; [detectedLang] is computed and never read. *)
Definition convertToBraille (text : jsstring) (language : option Language)
  : list BraillePattern :=
  let detectedLang :=
    match language with
    | Some l => l
    | None => detectLanguage text
    end in
  fold_left (fun result ch => result ++ [convertChar ch]) (chars text) [].

End BrailleConverter.

Import BrailleConverter.

(** * BrailleRenderer: the layout of the records

    The parts of class [BrailleRenderer] that compute on records: the
    splitting into lines and the place of a dot in the cell.  Drawing itself
    (canvas calls, SVG text, pixel arithmetic on floating-point options) is
    not modelled. *)
Module BrailleRenderer.

(** One turn of the loop of [splitIntoLines] on the pair of [lines] and
    [currentLine]: a record whose [char] is the newline closes the current
    line and is not kept. *)
Definition splitStep (st : list (list BraillePattern) * list BraillePattern)
    (pattern : BraillePattern) : list (list BraillePattern) * list BraillePattern :=
  let '(lines, currentLine) := st in
  if bool_decide (char pattern = [10])
  then (lines ++ [currentLine], [])
  else (lines, currentLine ++ [pattern]).

(** [splitIntoLines]: after the loop a last line is pushed only when it is
    not empty, and an empty result is replaced by one empty line. *)
Definition splitIntoLines (patterns : list BraillePattern) : list (list BraillePattern) :=
  let '(lines, currentLine) := fold_left splitStep patterns ([], []) in
  let lines :=
    if bool_decide (0 < length currentLine)%nat then lines ++ [currentLine] else lines in
  if bool_decide (0 < length lines)%nat then lines else [[]].

(** [dotPositions[dot] || [0, 0]] of [renderBrailleCell] and
    [generateBrailleCellSVG]: column and row of a dot in the cell. *)
Definition dotPosition (dot : Z) : Z * Z :=
  match dot with
  | 1 => (0, 0)
  | 2 => (0, 1)
  | 3 => (0, 2)
  | 4 => (1, 0)
  | 5 => (1, 1)
  | 6 => (1, 2)
  | 7 => (0, 3)
  | 8 => (1, 3)
  | _ => (0, 0)
  end.

End BrailleRenderer.

Import BrailleRenderer.

(** * The converter view

    Two expressions of the React component that shows the result: the
    Braille text and the count on the chip below it. *)
Module View.



End View.

Import View.

(** * Vocabulary of the properties *)

(** What the loop of [dotsToUnicode] adds to [0x2800]. *)
Definition dotSum (ds : list Z) : Z := foldr (fun dot acc => dotBit dot + acc) 0 ds.

(** The bit-packing rule as the specification words it: bit [k-1] is set
    exactly when dot [k] is a member. *)
Definition bitmask (ds : list Z) : Z :=
  foldr (fun k m => Z.lor (Z.shiftl 1 (k - 1)) m) 0 ds.

(** A dot number. *)
Definition validDot (d : Z) : Prop := 1 <= d <= 8.

#[local] Instance validDot_dec d : Decision (validDot d) :=
  ltac:(unfold validDot; apply _).

(** The dot set of a record. *)
Definition dotSet (r : BraillePattern) : gset Z := list_to_set (dots r).

(** The characters the first two rules of the loop take: space, tab and
    newline. *)
Definition isBlank (ch : jsstring) : Prop := ch = [32] \/ ch = [9] \/ ch = [10].

#[local] Instance isBlank_dec ch : Decision (isBlank ch) :=
  ltac:(unfold isBlank; apply _).

(** The three scripts [detectLanguage] looks for, as the specification words
    them: a Hangul syllable, a hiragana or katakana character, a Latin
    letter. *)
Definition isHangulSyllable (c : Z) : Prop := 0xAC00 <= c <= 0xD7A3.
Definition isKana (c : Z) : Prop := 0x3040 <= c <= 0x309F \/ 0x30A0 <= c <= 0x30FF.
Definition isLatinLetter (c : Z) : Prop := 65 <= c <= 90 \/ 97 <= c <= 122.

#[local] Instance isHangulSyllable_dec c : Decision (isHangulSyllable c) :=
  ltac:(unfold isHangulSyllable; apply _).
#[local] Instance isKana_dec c : Decision (isKana c) :=
  ltac:(unfold isKana; apply _).
#[local] Instance isLatinLetter_dec c : Decision (isLatinLetter c) :=
  ltac:(unfold isLatinLetter; apply _).

(** The verdict as the specification words it: [mixed] when two or more of
    the presence flags hold, the flag's own tag when exactly one holds,
    [english] when none does. *)
Definition verdict (hasKorean hasJapanese hasEnglish : bool) : Language :=
  match hasKorean, hasJapanese, hasEnglish with
  | false, false, false => english
  | true, false, false => korean
  | false, true, false => japanese
  | false, false, true => english
  | _, _, _ => mixed
  end.

Definition isUpper (c : Z) : Prop := 65 <= c <= 90.
Definition isDigit (c : Z) : Prop := 48 <= c <= 57.

(** The indicator written in front: dot 6 for a capital, dots 3,4,5,6 for a
    digit. *)
Definition indicator (c : Z) : list Z :=
  if decide (65 <= c <= 90) then [6] else [3; 4; 5; 6].

(** The lowercase letter whose shape is reused: the letter itself for a
    capital; a for 1, b for 2, ..., i for 9, and j for 0. *)
Definition baseLetter (c : Z) : Z :=
  if decide (65 <= c <= 90) then c + 32
  else if decide (c = 48) then 106
  else c + 48.

(** All entries of the four tables. *)
Definition allEntries : list (jsstring * list Z) :=
  koreanBrailleMap_entries ++ japaneseBrailleMap_entries
    ++ englishBrailleMap_entries ++ punctuationMap_entries.

(** The entries of the Korean table whose key does not pass the test that
    selects the table. *)
Definition jamoEntries : list (jsstring * list Z) :=
  filter (fun kv => test koreanPattern kv.1 = false) koreanBrailleMap_entries.

(** The dots read back from the bits of a code point of the Braille
    block. *)
Definition decodeDots (cp : Z) : list Z :=
  filter (fun k => Z.testbit (cp - 0x2800) (k - 1) = true) (seqZ 1 8).

Definition isSurrogate (c : Z) : Prop := 0xD800 <= c <= 0xDFFF.

(** A text cut between [t1] and [t2] is cut inside a surrogate pair. *)
Definition splitsPair (t1 t2 : jsstring) : bool :=
  match last t1, head t2 with
  | Some c, Some d => isLeadSurrogate c && isTrailSurrogate d
  | _, _ => false
  end.

(** A text without letters of the three scripts. *)
Definition scriptless (text : jsstring) : Prop :=
  Forall (fun c => ~ isHangulSyllable c /\ ~ isKana c /\ ~ isLatinLetter c) text.

(** The characters whose table entry repeats a dot number: the syllables
    U+B155 and U+D558, the capitals U to Z, and the digits 3 to 9 and 0. *)
Definition repeatedDotChars : list jsstring :=
  [[0xB155]; [0xD558]; [85]; [86]; [87]; [88]; [89]; [90];
   [51]; [52]; [53]; [54]; [55]; [56]; [57]; [48]].

(** The five syllables of the Korean table. *)
Definition tableSyllables : list Z := [0xC548; 0xB155; 0xD558; 0xC138; 0xC694].

(** Lowercase letters, uppercase letters, digits. *)
Definition sameClass (c1 c2 : Z) : Prop :=
  (97 <= c1 <= 122 /\ 97 <= c2 <= 122) \/ (65 <= c1 <= 90 /\ 65 <= c2 <= 90)
  \/ (48 <= c1 <= 57 /\ 48 <= c2 <= 57).

Definition isNewline (p : BraillePattern) : Prop := char p = [10].

#[local] Instance isNewline_dec p : Decision (isNewline p) :=
  ltac:(unfold isNewline; apply _).

(** The records between the newline records, as a structural recursion: one
    segment more than there are newline records. *)
Fixpoint segments (patterns : list BraillePattern) : list (list BraillePattern) :=
  match patterns with
  | [] => [[]]
  | p :: rest =>
      if decide (isNewline p) then [] :: segments rest
      else match segments rest with
           | s :: ss => (p :: s) :: ss
           | [] => [[p]]
           end
  end.

(** What the last record contributes to the line count: a line of its own
    unless the text is empty or ends in a newline record. *)
Definition openLine (patterns : list BraillePattern) : nat :=
  match last patterns with
  | Some p => if decide (isNewline p) then 0 else 1
  | None => 0
  end.

(** Six capitals and the lowercase letter that has the same dots once dot 6
    is added: J/w, K/u, L/v, M/x, N/y, O/z. *)
Definition capitalTwins : list (Z * Z) :=
  [(74, 119); (75, 117); (76, 118); (77, 120); (78, 121); (79, 122)].

(** [not_blank] refutes [isBlank] of a literal string. *)
Ltac not_blank :=
  let H := fresh in
  unfold isBlank; intros [H|[H|H]]; discriminate H.

(** [class_miss] proves that a one-unit string fails a character-class
    test, from the range its code unit lies in. *)
Ltac class_miss :=
  unfold test, koreanPattern, japanesePattern, englishPattern, alnumPattern, inRange;
  cbn [existsb]; rewrite orb_false_r; apply not_true_is_false;
  rewrite ?orb_true_iff, ?andb_true_iff, ?Z.leb_le; lia.

(** * The examples of the test suite *)

Example detect_korean :
  detectLanguage [0xC548; 0xB155; 0xD558; 0xC138; 0xC694] = korean.
Proof. reflexivity. Qed.

Example detect_english :
  detectLanguage [72; 101; 108; 108; 111; 32; 87; 111; 114; 108; 100] = english.
Proof. reflexivity. Qed.

Example detect_japanese :
  detectLanguage [0x3053; 0x3093; 0x306B; 0x3061; 0x306F] = japanese.
Proof. reflexivity. Qed.

Example detect_mixed :
  detectLanguage [72; 101; 108; 108; 111; 32; 0xC548; 0xB155] = mixed.
Proof. reflexivity. Qed.

Example convert_a : convertToBraille [97] None = [mkPattern [97] [0x2801] [1]].
Proof. reflexivity. Qed.

Example convert_a_space_b :
  convertToBraille [97; 32; 98] None =
    [mkPattern [97] [0x2801] [1]; mkPattern [32] [32] []; mkPattern [98] [0x2803] [1; 2]].
Proof. reflexivity. Qed.

Example convert_a_newline_b :
  unicode <$> convertToBraille [97; 10; 98] None = [[0x2801]; [10]; [0x2803]].
Proof. reflexivity. Qed.

Example convert_Hello_bang :
  dots <$> convertToBraille [72; 101; 108; 108; 111; 33] (Some english) =
    [[6; 1; 2; 5]; [1; 5]; [1; 2; 3]; [1; 2; 3]; [1; 3; 5]; [2; 3; 5]].
Proof. reflexivity. Qed.

Example dots_1 : dotsToUnicode [1] = [0x2801].
Proof. reflexivity. Qed.

Example dots_1_2 : dotsToUnicode [1; 2] = [0x2803].
Proof. reflexivity. Qed.

Example dots_empty : dotsToUnicode [] = [0x2800].
Proof. reflexivity. Qed.

(** A character outside the Basic Multilingual Plane is two code units and
    one character: U+1F600 gets one record. *)
Example convert_astral :
  convertToBraille [0xD83D; 0xDE00] None =
    [mkPattern [0xD83D; 0xDE00] [0x2822] [2; 6]].
Proof. reflexivity. Qed.

(** * Dot arrays and code points *)

Lemma dotsToUnicode_dotSum ds :
  dotsToUnicode ds = [(0x2800 + dotSum ds) mod 65536].
Proof.
  unfold dotsToUnicode, fromCharCode. f_equal. f_equal.
  generalize 0x2800. induction ds as [|d ds IH]; intros a; simpl.
  - lia.
  - rewrite IH. lia.
Qed.

Lemma dotBit_nonneg d : 0 <= dotBit d.
Proof.
  unfold dotBit.
  repeat match goal with |- context [match ?x with _ => _ end] => destruct x end; lia.
Qed.

Lemma dotSum_nonneg ds : 0 <= dotSum ds.
Proof.
  induction ds as [|d ds IH]; simpl; [lia|].
  pose proof (dotBit_nonneg d). lia.
Qed.

Lemma dotBit_pow2 d : validDot d -> dotBit d = 2 ^ (d - 1).
Proof.
  unfold validDot. intros Hd.
  assert (d = 1 \/ d = 2 \/ d = 3 \/ d = 4 \/ d = 5 \/ d = 6 \/ d = 7 \/ d = 8)
    as Hcases by lia.
  repeat destruct Hcases as [->|Hcases]; try subst d; reflexivity.
Qed.

Lemma bitmask_testbit ds i :
  0 <= i -> Forall validDot ds ->
  Z.testbit (bitmask ds) i = true <-> i + 1 ∈ ds.
Proof.
  intros Hi. induction 1 as [|d ds Hd _ IH]; simpl.
  - rewrite Z.bits_0. split; [discriminate | inversion 1].
  - rewrite Z.lor_spec, Z.shiftl_1_l, Z.pow2_bits_eqb by (unfold validDot in Hd; lia).
    rewrite orb_true_iff, elem_of_cons, IH, Z.eqb_eq. intuition lia.
Qed.

Lemma bitmask_dot ds k :
  Forall validDot ds -> 1 <= k <= 8 ->
  Z.testbit (bitmask ds) (k - 1) = true <-> k ∈ ds.
Proof.
  intros Hds Hk. rewrite bitmask_testbit by (assumption || lia).
  by replace (k - 1 + 1) with k by lia.
Qed.

Lemma bitmask_range ds : Forall validDot ds -> 0 <= bitmask ds < 256.
Proof.
  intros Hds.
  assert (bitmask ds = Z.land (bitmask ds) (Z.ones 8)) as Heq.
  { apply Z.bits_inj'. intros n Hn. rewrite Z.land_spec.
    destruct (Z.testbit (bitmask ds) n) eqn:Hbit; [|reflexivity].
    apply bitmask_testbit in Hbit; [|lia|assumption].
    rewrite Forall_forall in Hds. apply Hds in Hbit. unfold validDot in Hbit.
    rewrite Z.ones_spec_low by lia. reflexivity. }
  rewrite Z.land_ones in Heq by lia. change (2 ^ 8) with 256 in Heq.
  pose proof (Z.mod_pos_bound (bitmask ds) 256). lia.
Qed.

(** Adding the bits of distinct dots is the same as or-ing them. *)
Lemma dotSum_bitmask ds :
  NoDup ds -> Forall validDot ds -> dotSum ds = bitmask ds.
Proof.
  induction 1 as [|d ds Hnotin _ IH]; intros Hds; [reflexivity|].
  apply Forall_cons in Hds as [Hd Hds]. simpl.
  rewrite IH, (dotBit_pow2 d), Z.shiftl_1_l by assumption.
  assert (Z.land (2 ^ (d - 1)) (bitmask ds) = 0) as Hdisjoint.
  { apply Z.bits_inj'. intros n Hn.
    rewrite Z.land_spec, Z.bits_0, Z.pow2_bits_eqb by (unfold validDot in Hd; lia).
    destruct (Z.eqb_spec (d - 1) n) as [<-|]; [|reflexivity].
    destruct (Z.testbit (bitmask ds) (d - 1)) eqn:Hbit; [|reflexivity].
    apply bitmask_dot in Hbit; [contradiction | assumption | exact Hd]. }
  rewrite Z.add_nocarry_lxor, Z.lxor_lor by assumption. reflexivity.
Qed.

Lemma dotSum_permutation ds1 ds2 :
  Permutation ds1 ds2 -> dotSum ds1 = dotSum ds2.
Proof.
  induction 1 as [|d l l' _ IH|d d' l|l l' l'' _ IH1 _ IH2]; simpl; lia.
Qed.

(** The order never matters, repeated dots or not. *)
Lemma dotsToUnicode_permutation ds1 ds2 :
  Permutation ds1 ds2 -> dotsToUnicode ds1 = dotsToUnicode ds2.
Proof.
  intros Hperm. by rewrite !dotsToUnicode_dotSum, (dotSum_permutation ds1 ds2).
Qed.

Lemma dotsToUnicode_NoDup ds :
  NoDup ds -> Forall validDot ds -> dotsToUnicode ds = [0x2800 + bitmask ds].
Proof.
  intros Hnodup Hvalid. pose proof (bitmask_range ds Hvalid).
  rewrite dotsToUnicode_dotSum, dotSum_bitmask by assumption.
  f_equal. apply Z.mod_small. lia.
Qed.

Lemma dotsToUnicode_block ds :
  dotSum ds <= 255 ->
  exists cp, dotsToUnicode ds = [cp] /\ 0x2800 <= cp <= 0x28FF.
Proof.
  intros Hle. pose proof (dotSum_nonneg ds).
  exists (0x2800 + dotSum ds). split; [|lia].
  rewrite dotsToUnicode_dotSum. f_equal. apply Z.mod_small. lia.
Qed.

(** * The loop of convertToBraille *)

Lemma push_loop {A B} (f : A -> B) (l : list A) (acc : list B) :
  fold_left (fun result x => result ++ [f x]) l acc = acc ++ (f <$> l).
Proof.
  revert acc. induction l as [|x l IH]; intros acc; simpl.
  - by rewrite app_nil_r.
  - by rewrite IH, <- app_assoc.
Qed.

Lemma convertToBraille_fmap text language :
  convertToBraille text language = convertChar <$> chars text.
Proof. unfold convertToBraille. by rewrite push_loop. Qed.

Lemma elem_of_convertToBraille r text language :
  r ∈ convertToBraille text language -> exists ch, r = convertChar ch /\ ch ∈ chars text.
Proof. rewrite convertToBraille_fmap. apply list_elem_of_fmap_1. Qed.

(** The characters walked by the loop make up the text. *)
Lemma chars_concat text : concat (chars text) = text.
Proof.
  assert (forall n (t : jsstring), (length t <= n)%nat -> concat (chars t) = t) as Hn.
  { induction n as [|n IH]; intros [|c [|d rest]] Hlen; simpl in *; try done; try lia.
    destruct (isLeadSurrogate c && isTrailSurrogate d); simpl.
    - rewrite IH by lia. done.
    - f_equal. apply (IH (d :: rest)). simpl. lia. }
  by apply (Hn (length text)).
Qed.

Section Lookup.

Variable table : gmap jsstring (list Z).

(** The body shared by the four helpers. *)
Lemma lookup_pattern_Some ch pattern :
  match table !! ch with
  | Some ds => Some {| char := ch; unicode := dotsToUnicode ds; dots := ds |}
  | None => None
  end = Some pattern ->
  exists ds, table !! ch = Some ds /\ pattern = mkPattern ch (dotsToUnicode ds) ds.
Proof. destruct (table !! ch) as [ds|]; intros [= <-]; eauto. Qed.

End Lookup.

Lemma classify_lookup ch pattern :
  classify ch = Some pattern ->
  exists ds,
    pattern = mkPattern ch (dotsToUnicode ds) ds
    /\ (koreanBrailleMap !! ch = Some ds \/ japaneseBrailleMap !! ch = Some ds
        \/ englishBrailleMap !! ch = Some ds \/ punctuationMap !! ch = Some ds).
Proof.
  unfold classify, convertKoreanChar, convertJapaneseChar, convertEnglishChar,
    convertPunctuation.
  destruct (test koreanPattern ch); [|destruct (test japanesePattern ch);
    [|destruct (test alnumPattern ch)]];
    intros (ds & Hlookup & ->)%lookup_pattern_Some; exists ds; auto.
Qed.

Lemma classify_char ch pattern : classify ch = Some pattern -> char pattern = ch.
Proof. by intros (ds & -> & _)%classify_lookup. Qed.

Lemma convertChar_char ch : char (convertChar ch) = ch.
Proof.
  unfold convertChar. repeat case_match; try done.
  by apply classify_char.
Qed.

Lemma convertChar_blank ch :
  isBlank ch ->
  convertChar ch = mkPattern ch [32] [] \/ convertChar ch = mkPattern ch [10] [].
Proof. unfold convertChar. intros [-> | [-> | ->]]; simpl; auto. Qed.

Lemma convertChar_not_blank ch :
  ~ isBlank ch ->
  convertChar ch = match classify ch with Some pattern => pattern | None => fallback ch end.
Proof.
  unfold isBlank, convertChar. intros Hnb.
  repeat case_bool_decide; simpl; try done; tauto.
Qed.

(** * Facts read off the tables *)

(** Every dot array of the tables holds dot numbers only, and its bits add
    up to at most 255, also where a dot number is repeated. *)
Lemma allEntries_valid :
  Forall (fun kv => Forall validDot kv.2 /\ dotSum kv.2 <= 255) allEntries.
Proof. compute_done. Qed.

(** No object literal repeats a key, so building the map from the entries
    loses nothing. *)
Lemma table_keys_NoDup :
  NoDup koreanBrailleMap_entries.*1 /\ NoDup japaneseBrailleMap_entries.*1
  /\ NoDup englishBrailleMap_entries.*1 /\ NoDup punctuationMap_entries.*1.
Proof. compute_done. Qed.

Lemma lookup_allEntries ch ds :
  koreanBrailleMap !! ch = Some ds \/ japaneseBrailleMap !! ch = Some ds
    \/ englishBrailleMap !! ch = Some ds \/ punctuationMap !! ch = Some ds ->
  (ch, ds) ∈ allEntries.
Proof.
  unfold allEntries. rewrite !elem_of_app.
  intros [H|[H|[H|H]]]; apply elem_of_list_to_map_2 in H; auto.
Qed.

Lemma classify_Some_valid ch pattern :
  classify ch = Some pattern ->
  char pattern = ch /\ unicode pattern = dotsToUnicode (dots pattern)
    /\ Forall validDot (dots pattern) /\ dotSum (dots pattern) <= 255.
Proof.
  intros (ds & -> & Hin%lookup_allEntries)%classify_lookup. simpl.
  pose proof allEntries_valid as Hall. rewrite Forall_forall in Hall.
  apply Hall in Hin. simpl in Hin. tauto.
Qed.

(** An uppercase letter or digit carries its indicator followed by the dots
    of its base letter. *)
Lemma combined_cell_table :
  Forall (fun c => dots (convertChar [c]) = indicator c ++ dots (convertChar [baseLetter c]))
         (seqZ 65 26 ++ seqZ 48 10).
Proof. compute_done. Qed.

Lemma punctuationMap_ascii ch ds :
  punctuationMap !! ch = Some ds -> exists c, ch = [c] /\ 0 <= c < 128.
Proof.
  intros Hin%elem_of_list_to_map_2. unfold punctuationMap_entries in Hin.
  repeat (apply elem_of_cons in Hin as [Hin|Hin];
          [injection Hin as -> _; eexists; split; [reflexivity | lia] |]).
  by apply elem_of_nil in Hin.
Qed.

(** The Korean table has 24 jamo keys; each is one code unit of
    U+3131..U+3163 and none passes the test that selects the table. *)
Lemma koreanBrailleMap_jamo_keys :
  length jamoEntries = 24%nat
  /\ Forall (fun kv => length kv.1 = 1%nat /\ test (inRange 0x3131 0x3163) kv.1 = true)
            jamoEntries.
Proof. compute_done. Qed.

(** The presence tests of [detectLanguage] against the vocabulary. *)
Lemma test_Exists (class : Z -> bool) (P : Z -> Prop) `{!forall c, Decision (P c)} text :
  (forall c, class c = true <-> P c) ->
  test class text = bool_decide (Exists P text).
Proof.
  intros Hclass. unfold test.
  induction text as [|c text IH]; cbn [existsb].
  - symmetry. apply bool_decide_eq_false. by intros ?%Exists_nil.
  - destruct (class c) eqn:Hc; cbn [orb].
    + symmetry. apply bool_decide_eq_true. left. by apply Hclass.
    + rewrite IH. apply bool_decide_ext. rewrite Exists_cons.
      rewrite <- Hclass, Hc. intuition discriminate.
Qed.

Lemma inRange_spec lo hi c : inRange lo hi c = true <-> lo <= c <= hi.
Proof. unfold inRange. rewrite andb_true_iff, !Z.leb_le. done. Qed.

Lemma koreanPattern_spec c : koreanPattern c = true <-> isHangulSyllable c.
Proof. apply inRange_spec. Qed.

Lemma japanesePattern_spec c : japanesePattern c = true <-> isKana c.
Proof. unfold japanesePattern, isKana. by rewrite orb_true_iff, !inRange_spec. Qed.

Lemma englishPattern_spec c : englishPattern c = true <-> isLatinLetter c.
Proof.
  unfold englishPattern, isLatinLetter. rewrite orb_true_iff, !inRange_spec. tauto.
Qed.

(** * Claims *)


(** C2. For a duplicate-free list of dot numbers from 1..8, [dotsToUnicode]
    returns the single character U+2800 + bitmask, where bit k-1 of the
    mask is set iff dot k is in the list (so dot 1 adds 0x01, ..., dot 8
    adds 0x80); the empty list yields U+2800. *)
Theorem dotsToUnicode_bitmask ds :
  NoDup ds -> Forall validDot ds ->
  dotsToUnicode ds = [0x2800 + bitmask ds]
  /\ 0 <= bitmask ds < 256
  /\ (forall k, 1 <= k <= 8 -> Z.testbit (bitmask ds) (k - 1) = true <-> k ∈ ds)
  /\ (ds = [] -> dotsToUnicode ds = [0x2800]).
Proof.
  intros Hnodup Hvalid. split_and!.
  - by apply dotsToUnicode_NoDup.
  - by apply bitmask_range.
  - by apply bitmask_range.
  - intros k Hk. by apply bitmask_dot.
  - by intros ->.
Qed.

Lemma dotsToUnicode_bitmask_witness :
  dotsToUnicode [4; 1; 8] = [0x2800 + bitmask [4; 1; 8]]
  /\ bitmask [4; 1; 8] = 0x89.
Proof.
  split; [|reflexivity].
  apply (dotsToUnicode_bitmask [4; 1; 8]).
  - apply (bool_decide_unpack _); vm_compute; exact I.
  - apply (bool_decide_unpack _); vm_compute; exact I.
Defined.




(** C4. [convertToBraille] is a total function giving one record per
    character, and for a character that no rule turns into a dot set
    (neither blank nor found in the table its script selects) the record
    is the fallback: dots 2 and 6, code point U+2822, and the input
    character unchanged in [char]. *)
Theorem convertToBraille_fallback text language i ch :
  chars text !! i = Some ch -> ~ isBlank ch -> classify ch = None ->
  length (convertToBraille text language) = length (chars text)
  /\ convertToBraille text language !! i = Some (mkPattern ch [0x2822] [2; 6]).
Proof.
  intros Hi Hnb Hclass.
  rewrite convertToBraille_fmap, length_fmap, list_lookup_fmap, Hi.
  split; [reflexivity|].
  cbn [fmap option_fmap option_map].
  rewrite (convertChar_not_blank ch Hnb), Hclass. reflexivity.
Qed.

Lemma convertToBraille_fallback_witness :
  convertToBraille [0x2211] None !! 0%nat = Some (mkPattern [0x2211] [0x2822] [2; 6]).
Proof.
  apply (convertToBraille_fallback [0x2211] None 0 [0x2211]).
  - reflexivity.
  - not_blank.
  - vm_compute. reflexivity.
Defined.

(** C5. [detectLanguage] computes three presence flags (some character in
    the Hangul syllables U+AC00..U+D7A3, some hiragana or katakana
    character, some Latin letter A-Z or a-z) and answers [mixed] when two or
    more hold, the single tag when exactly one holds, and [english] when
    none holds. *)
Theorem detectLanguage_presence text :
  detectLanguage text =
    verdict (bool_decide (Exists isHangulSyllable text))
            (bool_decide (Exists isKana text))
            (bool_decide (Exists isLatinLetter text)).
Proof.
  unfold detectLanguage.
  rewrite (test_Exists _ _ text koreanPattern_spec),
    (test_Exists _ _ text japanesePattern_spec),
    (test_Exists _ _ text englishPattern_spec).
  destruct (bool_decide (Exists isHangulSyllable text)),
    (bool_decide (Exists isKana text)),
    (bool_decide (Exists isLatinLetter text)); reflexivity.
Qed.

(** C6. The output of [convertToBraille] is the same for every choice of the
    optional language argument, given or omitted: each record is computed
    from its own character alone. *)
Theorem convertToBraille_language_irrelevant text language1 language2 :
  convertToBraille text language1 = convertToBraille text language2
  /\ convertToBraille text language1 = convertChar <$> chars text.
Proof. by rewrite !convertToBraille_fmap. Qed.

(** C7. For every ASCII uppercase letter the single record has as dot set
    the union of {6} and the dot set of the lowercase letter; for every
    ASCII digit the single record has as dot set the union of {3,4,5,6} and
    the dot set of the letter whose shape it reuses (1 = a, ..., 9 = i,
    0 = j).  The indicator and the letter are in one record, not two. *)
Theorem uppercase_digit_combined_cell c language :
  isUpper c \/ isDigit c ->
  exists rc rb,
    convertToBraille [c] language = [rc]
    /\ convertToBraille [baseLetter c] language = [rb]
    /\ char rc = [c]
    /\ dots rc = indicator c ++ dots rb
    /\ dotSet rc = list_to_set (indicator c) ∪ dotSet rb.
Proof.
  unfold isUpper, isDigit. intros Hc.
  exists (convertChar [c]), (convertChar [baseLetter c]).
  assert (dots (convertChar [c]) = indicator c ++ dots (convertChar [baseLetter c]))
    as Hdots.
  { pose proof combined_cell_table as Htable. rewrite Forall_forall in Htable.
    apply Htable. rewrite elem_of_app, !elem_of_seqZ. lia. }
  split_and!.
  - by rewrite convertToBraille_fmap.
  - by rewrite convertToBraille_fmap.
  - apply convertChar_char.
  - exact Hdots.
  - unfold dotSet. rewrite Hdots. apply list_to_set_app_L.
Qed.

Lemma uppercase_digit_combined_cell_witness :
  exists rc rb,
    convertToBraille [85] None = [rc]
    /\ convertToBraille [117] None = [rb]
    /\ char rc = [85]
    /\ dots rc = [6] ++ dots rb
    /\ dotSet rc = {[6]} ∪ dotSet rb.
Proof.
  destruct (uppercase_digit_combined_cell 85 None) as (rc & rb & H1 & H2 & H3 & H4 & H5).
  - left. unfold isUpper. lia.
  - exists rc, rb. split_and!; [exact H1 | exact H2 | exact H3 | exact H4 |].
    rewrite H5. reflexivity.
Defined.

(** C8. [dotsToUnicode] does not depend on the order of the dots: two
    duplicate-free lists of dot numbers from 1..8 that are permutations of
    each other give the same character. *)
Theorem dotsToUnicode_order_independent ds1 ds2 :
  NoDup ds1 -> Forall validDot ds1 -> Permutation ds1 ds2 ->
  dotsToUnicode ds1 = dotsToUnicode ds2.
Proof. intros _ _. apply dotsToUnicode_permutation. Qed.

Lemma dotsToUnicode_order_independent_witness :
  dotsToUnicode [2; 1] = dotsToUnicode [1; 2].
Proof.
  apply dotsToUnicode_order_independent.
  - apply (bool_decide_unpack _); vm_compute; exact I.
  - apply (bool_decide_unpack _); vm_compute; exact I.
  - apply perm_swap.
Defined.

(** C9. Every record produced by [convertToBraille] has as code point the
    literal space, the literal newline, or one character of the Braille
    Patterns block U+2800..U+28FF; table entries that repeat a dot number
    stay inside the block too. *)
Theorem convertToBraille_codePoint_in_block text language r :
  r ∈ convertToBraille text language ->
  unicode r = [32] \/ unicode r = [10]
  \/ exists cp, unicode r = [cp] /\ 0x2800 <= cp <= 0x28FF.
Proof.
  intros (ch & -> & _)%elem_of_convertToBraille.
  destruct (decide (isBlank ch)) as [Hblank|Hnb].
  - destruct (convertChar_blank ch Hblank) as [-> | ->]; simpl; auto.
  - rewrite (convertChar_not_blank ch Hnb). right; right.
    destruct (classify ch) as [pattern|] eqn:Hclass.
    + apply classify_Some_valid in Hclass as (_ & -> & _ & Hsum).
      by apply dotsToUnicode_block.
    + exists 0x2822. split; [reflexivity | lia].
Qed.

Lemma convertToBraille_codePoint_in_block_witness :
  exists cp, [0x283C] = [cp] /\ 0x2800 <= cp <= 0x28FF.
Proof.
  destruct (convertToBraille_codePoint_in_block [0xB155] None
              (mkPattern [0xB155] [0x283C] [1; 4; 5; 1; 2; 6])) as [H|[H|H]].
  - vm_compute. left.
  - discriminate H.
  - discriminate H.
  - exact H.
Defined.

(** C10. For every Hangul compatibility jamo U+3131..U+3163 the character is
    outside the range that selects the Korean table, and [convertToBraille]
    emits the fallback record with dots 2 and 6, whether or not the Korean
    table has an entry for it; the jamo entries of that table are therefore
    never returned. *)
Theorem jamo_fallback c language :
  0x3131 <= c <= 0x3163 ->
  test koreanPattern [c] = false
  /\ convertToBraille [c] language = [mkPattern [c] [0x2822] [2; 6]].
Proof.
  intros Hc.
  assert (test koreanPattern [c] = false) as Hk by class_miss.
  assert (test japanesePattern [c] = false) as Hj by class_miss.
  assert (test alnumPattern [c] = false) as Ha by class_miss.
  split; [exact Hk|].
  rewrite convertToBraille_fmap. cbn [chars fmap list_fmap].
  rewrite convertChar_not_blank.
  - unfold classify. rewrite Hk, Hj, Ha. unfold convertPunctuation.
    destruct (punctuationMap !! [c]) as [ds|] eqn:Hp; [|reflexivity].
    apply punctuationMap_ascii in Hp as (c' & [= <-] & Hc'). lia.
  - unfold isBlank. intros [H|[H|H]]; injection H; lia.
Qed.

Lemma jamo_fallback_witness :
  koreanBrailleMap !! [0x3131] = Some [1; 4]
  /\ convertToBraille [0x3131] None = [mkPattern [0x3131] [0x2822] [2; 6]].
Proof.
  split; [reflexivity|].
  apply (jamo_fallback 0x3131 None). lia.
Defined.

(** * Further properties of dotsToUnicode *)

Lemma dotBit_invalid d : ~ validDot d -> dotBit d = 0.
Proof.
  unfold validDot, dotBit. intros Hd.
  repeat match goal with |- context [match ?x with _ => _ end] => destruct x end;
    first [reflexivity | lia].
Qed.

Lemma dotSum_filter_valid ds : dotSum (filter validDot ds) = dotSum ds.
Proof.
  induction ds as [|d ds IH]; [reflexivity|].
  rewrite filter_cons. destruct (decide (validDot d)) as [Hd|Hd]; simpl.
  - by rewrite IH.
  - by rewrite IH, (dotBit_invalid d).
Qed.

Lemma dotBit_double k : 1 <= k <= 7 -> dotBit k + dotBit k = dotBit (k + 1).
Proof.
  intros Hk.
  assert (k = 1 \/ k = 2 \/ k = 3 \/ k = 4 \/ k = 5 \/ k = 6 \/ k = 7) as Hcases by lia.
  repeat destruct Hcases as [->|Hcases]; try subst k; reflexivity.
Qed.

Lemma bitmask_inj ds1 ds2 :
  Forall validDot ds1 -> Forall validDot ds2 -> bitmask ds1 = bitmask ds2 ->
  forall k, k ∈ ds1 <-> k ∈ ds2.
Proof.
  intros H1 H2 Heq.
  assert (forall ds ds', Forall validDot ds -> Forall validDot ds' ->
            bitmask ds = bitmask ds' -> forall k, k ∈ ds -> k ∈ ds') as Hone.
  { intros ds ds' Hds Hds' Hmask k Hk.
    assert (validDot k) as Hvk by (rewrite Forall_forall in Hds; auto).
    apply (bitmask_dot ds' k Hds' Hvk). rewrite <- Hmask.
    by apply (bitmask_dot ds k Hds Hvk). }
  intros k. split; eauto.
Qed.

(** X1. Numbers that are not dot numbers are skipped: they fall through the
    [switch] and leave the character unchanged. *)
Theorem dotsToUnicode_skips_other_numbers ds :
  dotsToUnicode ds = dotsToUnicode (filter validDot ds).
Proof. by rewrite !dotsToUnicode_dotSum, dotSum_filter_valid. Qed.

(** X2. Different dot sets give different characters: two duplicate-free
    lists of dot numbers with the same character hold the same dots. *)
Theorem dotsToUnicode_injective ds1 ds2 :
  NoDup ds1 -> Forall validDot ds1 -> NoDup ds2 -> Forall validDot ds2 ->
  dotsToUnicode ds1 = dotsToUnicode ds2 ->
  Permutation ds1 ds2 /\ forall k, k ∈ ds1 <-> k ∈ ds2.
Proof.
  intros Hnd1 Hv1 Hnd2 Hv2 Heq.
  rewrite (dotsToUnicode_NoDup ds1), (dotsToUnicode_NoDup ds2) in Heq by assumption.
  assert (bitmask ds1 = bitmask ds2) as Hmask by (injection Heq; lia).
  pose proof (bitmask_inj ds1 ds2 Hv1 Hv2 Hmask) as Hmem.
  split; [by apply NoDup_Permutation | exact Hmem].
Qed.

Lemma dotsToUnicode_injective_witness : Permutation [5; 2] [2; 5].
Proof.
  apply (dotsToUnicode_injective [5; 2] [2; 5]).
  - apply (bool_decide_unpack _); vm_compute; exact I.
  - apply (bool_decide_unpack _); vm_compute; exact I.
  - apply (bool_decide_unpack _); vm_compute; exact I.
  - apply (bool_decide_unpack _); vm_compute; exact I.
  - reflexivity.
Defined.

Lemma decodeDots_table :
  Forall (fun cp => NoDup (decodeDots cp) /\ Forall validDot (decodeDots cp)
                    /\ dotsToUnicode (decodeDots cp) = [cp])
         (seqZ 0x2800 256).
Proof. compute_done. Qed.

(** X3. Every character of the Braille Patterns block U+2800..U+28FF is
    reached: the dots read back from its bits are a duplicate-free list of
    dot numbers that [dotsToUnicode] turns into that character. *)
Theorem dotsToUnicode_onto_block cp :
  0x2800 <= cp <= 0x28FF ->
  NoDup (decodeDots cp) /\ Forall validDot (decodeDots cp)
  /\ dotsToUnicode (decodeDots cp) = [cp].
Proof.
  intros Hcp. pose proof decodeDots_table as Htable.
  rewrite Forall_forall in Htable. apply Htable. rewrite elem_of_seqZ. lia.
Qed.

Lemma dotsToUnicode_onto_block_witness :
  decodeDots 0x2833 = [1; 2; 5; 6] /\ dotsToUnicode (decodeDots 0x2833) = [0x2833].
Proof.
  split; [reflexivity|].
  apply (dotsToUnicode_onto_block 0x2833). lia.
Defined.

(** X4. A repeated dot carries into the next one: since the bits are added,
    not or-ed, writing dot k twice (k from 1 to 7) gives the character of
    dot k+1 written once. *)
Theorem dotsToUnicode_repeated_dot_carries k ds :
  1 <= k <= 7 -> dotsToUnicode (k :: k :: ds) = dotsToUnicode (k + 1 :: ds).
Proof.
  intros Hk. rewrite !dotsToUnicode_dotSum. simpl.
  rewrite <- (dotBit_double k Hk). do 2 f_equal. lia.
Qed.

Lemma dotsToUnicode_repeated_dot_carries_witness :
  dotsToUnicode [6; 6; 1; 3] = dotsToUnicode [7; 1; 3].
Proof. apply (dotsToUnicode_repeated_dot_carries 6 [1; 3]). lia. Defined.

(** * Further properties of detectLanguage *)

Lemma test_app class t u : test class (t ++ u) = test class t || test class u.
Proof. apply existsb_app. Qed.

Lemma test_members class t u :
  (forall c, c ∈ t <-> c ∈ u) -> test class t = test class u.
Proof.
  intros Hmem. unfold test. apply eq_true_iff_eq.
  rewrite !existsb_exists. setoid_rewrite <- list_elem_of_In.
  split; intros (c & Hc & Hclass); exists c; split; try done; by apply Hmem.
Qed.

Lemma test_scriptless t :
  scriptless t ->
  test koreanPattern t = false /\ test japanesePattern t = false
  /\ test englishPattern t = false.
Proof.
  unfold scriptless. intros Ht.
  rewrite (test_Exists _ _ t koreanPattern_spec),
    (test_Exists _ _ t japanesePattern_spec),
    (test_Exists _ _ t englishPattern_spec).
  rewrite !bool_decide_eq_false, !Exists_exists. rewrite Forall_forall in Ht.
  split_and!; intros (c & Hc & Hclass); destruct (Ht c Hc) as (? & ? & ?); done.
Qed.

(** X5. The verdict depends on which code units occur, not on their order or
    number: two texts with the same code units get the same language. *)
Theorem detectLanguage_order_insensitive t u :
  (forall c, c ∈ t <-> c ∈ u) -> detectLanguage t = detectLanguage u.
Proof.
  intros Hmem. unfold detectLanguage.
  by rewrite (test_members koreanPattern t u), (test_members japanesePattern t u),
    (test_members englishPattern t u).
Qed.

Lemma detectLanguage_order_insensitive_witness :
  detectLanguage [97; 0xC548; 97] = detectLanguage [0xC548; 97].
Proof.
  apply detectLanguage_order_insensitive.
  intros c. rewrite !elem_of_cons. tauto.
Defined.

(** X6. [mixed] is absorbing: once a text is mixed, text added before or
    after it leaves it mixed. *)
Theorem detectLanguage_mixed_absorbing t u :
  detectLanguage t = mixed ->
  detectLanguage (t ++ u) = mixed /\ detectLanguage (u ++ t) = mixed.
Proof.
  unfold detectLanguage. rewrite !test_app.
  destruct (test koreanPattern t), (test japanesePattern t), (test englishPattern t),
    (test koreanPattern u), (test japanesePattern u), (test englishPattern u);
    simpl; intros H; try discriminate H; split; reflexivity.
Qed.

Lemma detectLanguage_mixed_absorbing_witness :
  detectLanguage ([72; 105; 0xC548] ++ [0x3042]) = mixed.
Proof. apply (detectLanguage_mixed_absorbing [72; 105; 0xC548] [0x3042]). reflexivity. Defined.

(** X7. Text without a Hangul syllable, a kana or a Latin letter (digits,
    punctuation, blanks, jamo, symbols) never changes the verdict, added
    before or after; on its own it is [english]. *)
Theorem detectLanguage_scriptless_neutral t u :
  scriptless u ->
  detectLanguage (t ++ u) = detectLanguage t
  /\ detectLanguage (u ++ t) = detectLanguage t
  /\ detectLanguage u = english.
Proof.
  intros (Hk & Hj & He)%test_scriptless.
  unfold detectLanguage. rewrite !test_app, Hk, Hj, He, !orb_false_r; simpl.
  done.
Qed.

Lemma detectLanguage_scriptless_neutral_witness :
  detectLanguage ([0xC548] ++ [49; 50; 33; 0x3131]) = detectLanguage [0xC548].
Proof.
  apply (detectLanguage_scriptless_neutral [0xC548] [49; 50; 33; 0x3131]).
  unfold scriptless, isHangulSyllable, isKana, isLatinLetter.
  repeat constructor; lia.
Defined.

(** * Further properties of convertToBraille *)

Lemma last_cons_cons {A} (c d : A) rest : last (c :: d :: rest) = last (d :: rest).
Proof. reflexivity. Qed.

Lemma chars_app t1 t2 :
  splitsPair t1 t2 = false -> chars (t1 ++ t2) = chars t1 ++ chars t2.
Proof.
  assert (forall n (t : jsstring), (length t <= n)%nat ->
            splitsPair t t2 = false -> chars (t ++ t2) = chars t ++ chars t2) as Hn.
  { induction n as [|n IH]; intros [|c [|d rest]] Hlen Hsp;
      try (simpl in Hlen; lia); try reflexivity.
    - unfold splitsPair in Hsp. cbn [last app chars] in *.
      destruct t2 as [|d' r]; [reflexivity|]. cbn [head] in Hsp. by rewrite Hsp.
    - cbn [app chars].
      destruct (isLeadSurrogate c && isTrailSurrogate d); cbn [app]; f_equal.
      + apply IH; [simpl in Hlen; lia|].
        destruct rest as [|e rest']; [by unfold splitsPair|].
        unfold splitsPair in *. by rewrite !last_cons_cons in Hsp.
      + apply (IH (d :: rest)); [simpl in *; lia|].
        unfold splitsPair in *. by rewrite last_cons_cons in Hsp. }
  by apply (Hn (length t1)).
Qed.

Lemma chars_no_surrogate text :
  Forall (fun c => ~ isSurrogate c) text -> chars text = (fun c => [c]) <$> text.
Proof.
  induction 1 as [|c rest Hc _ IH]; [reflexivity|].
  assert (isLeadSurrogate c = false) as Hlead.
  { unfold isLeadSurrogate, isSurrogate in *.
    apply not_true_is_false. rewrite andb_true_iff, !Z.leb_le. lia. }
  destruct rest as [|d rest']; [reflexivity|].
  rewrite fmap_cons, <- IH.
  change (chars (c :: d :: rest')) with
    (if isLeadSurrogate c && isTrailSurrogate d
     then [c; d] :: chars rest' else [c] :: chars (d :: rest')).
  by rewrite Hlead.
Qed.

Lemma allEntries_nonempty : Forall (fun kv => kv.2 <> []) allEntries.
Proof. compute_done. Qed.

Lemma classify_Some_dots ch pattern :
  classify ch = Some pattern -> dots pattern <> [].
Proof.
  intros (ds & -> & Hin%lookup_allEntries)%classify_lookup.
  pose proof allEntries_nonempty as Hall. rewrite Forall_forall in Hall.
  by apply Hall in Hin.
Qed.

Lemma convertChar_dots_nil ch : dots (convertChar ch) = [] <-> isBlank ch.
Proof.
  destruct (decide (isBlank ch)) as [Hblank|Hnb].
  - split; [done|]. intros _.
    by destruct (convertChar_blank ch Hblank) as [-> | ->].
  - rewrite (convertChar_not_blank ch Hnb).
    destruct (classify ch) as [pattern|] eqn:Hclass; [|done].
    apply classify_Some_dots in Hclass. done.
Qed.

Lemma convertChar_unicode ch :
  ~ isBlank ch -> unicode (convertChar ch) = dotsToUnicode (dots (convertChar ch)).
Proof.
  intros Hnb. rewrite (convertChar_not_blank ch Hnb).
  destruct (classify ch) as [pattern|] eqn:Hclass; [|reflexivity].
  by apply classify_Some_valid in Hclass as (_ & -> & _).
Qed.


(** X8. Conversion goes character by character: the records of a text cut
    in two are the records of the first part followed by those of the
    second, unless the cut falls between the two halves of a surrogate
    pair. *)
Theorem convertToBraille_app t1 t2 language :
  splitsPair t1 t2 = false ->
  convertToBraille (t1 ++ t2) language
    = convertToBraille t1 language ++ convertToBraille t2 language.
Proof.
  intros Hsp. by rewrite !convertToBraille_fmap, (chars_app t1 t2 Hsp), fmap_app.
Qed.

Lemma convertToBraille_app_witness :
  convertToBraille ([97; 0xD83D; 0xDE00] ++ [98]) None
    = convertToBraille [97; 0xD83D; 0xDE00] None ++ convertToBraille [98] None.
Proof. apply convertToBraille_app. reflexivity. Defined.

(** X9. For a text without surrogate code units the number of records is the
    length of the string, and the i-th record belongs to the i-th code
    unit. *)
Theorem convertToBraille_length_no_surrogate text language :
  Forall (fun c => ~ isSurrogate c) text ->
  length (convertToBraille text language) = length text
  /\ char <$> convertToBraille text language = (fun c => [c]) <$> text.
Proof.
  intros Hbmp.
  rewrite convertToBraille_fmap, (chars_no_surrogate text Hbmp), !length_fmap.
  split; [reflexivity|].
  induction text as [|c text IH]; [reflexivity|].
  apply Forall_cons in Hbmp as [_ Hbmp].
  rewrite !fmap_cons, convertChar_char. f_equal. by apply IH.
Qed.

Lemma convertToBraille_length_no_surrogate_witness :
  length (convertToBraille [72; 105; 33] None) = 3%nat.
Proof.
  apply (convertToBraille_length_no_surrogate [72; 105; 33] None).
  unfold isSurrogate. repeat constructor; lia.
Defined.

(** X10. A record has no dots exactly when its character is a space, a tab
    or a newline: every table entry and the fallback have at least one
    dot. *)
Theorem convertToBraille_no_dots_iff_blank text language r :
  r ∈ convertToBraille text language -> dots r = [] <-> isBlank (char r).
Proof.
  intros (ch & -> & _)%elem_of_convertToBraille.
  rewrite convertChar_char. apply convertChar_dots_nil.
Qed.

Lemma convertToBraille_no_dots_iff_blank_witness :
  @nil Z = [] <-> isBlank [9].
Proof.
  apply (convertToBraille_no_dots_iff_blank [97; 9] None (mkPattern [9] [32] [])).
  vm_compute. right. left.
Defined.

(** X11. For every record of a character that is not blank the code point is
    [dotsToUnicode] of the record's own dots, repeated dots included. *)
Theorem convertToBraille_unicode_of_dots text language r :
  r ∈ convertToBraille text language -> ~ isBlank (char r) ->
  unicode r = dotsToUnicode (dots r).
Proof.
  intros (ch & -> & _)%elem_of_convertToBraille.
  rewrite convertChar_char. apply convertChar_unicode.
Qed.

Lemma convertToBraille_unicode_of_dots_witness :
  [0x2845] = dotsToUnicode [6; 1; 3; 6].
Proof.
  apply (convertToBraille_unicode_of_dots [85] None (mkPattern [85] [0x2845] [6; 1; 3; 6])).
  - vm_compute. left.
  - not_blank.
Defined.



(** ** What the tables make of single characters *)

Lemma single_char c language : convertToBraille [c] language = [convertChar [c]].
Proof. by rewrite convertToBraille_fmap. Qed.

Lemma repeated_entries :
  Forall (fun kv => (NoDup kv.2 <-> kv.1 ∉ repeatedDotChars)
                    /\ (dotsToUnicode kv.2 = [0x2800 + bitmask kv.2]
                        <-> kv.1 ∉ repeatedDotChars))
         allEntries.
Proof. compute_done. Qed.

Lemma repeated_classified :
  Forall (fun ch => ~ isBlank ch /\ is_Some (classify ch)) repeatedDotChars.
Proof.
  unfold repeatedDotChars.
  repeat (apply Forall_cons; split; [split; [not_blank | by eexists] |]).
  apply Forall_nil_2.
Qed.

(** X14. The records that repeat a dot number are exactly those of the
    sixteen characters of [repeatedDotChars]; for every other character
    that is not blank the code point is U+2800 + bitmask of the dots, and
    for those sixteen it is not. *)
Theorem convertToBraille_repeated_dots text language r :
  r ∈ convertToBraille text language ->
  (NoDup (dots r) <-> char r ∉ repeatedDotChars)
  /\ (~ isBlank (char r) ->
      unicode r = [0x2800 + bitmask (dots r)] <-> char r ∉ repeatedDotChars).
Proof.
  intros (ch & -> & _)%elem_of_convertToBraille.
  rewrite convertChar_char.
  pose proof repeated_classified as Hrep. rewrite Forall_forall in Hrep.
  destruct (decide (isBlank ch)) as [Hblank|Hnb].
  - split; [|done].
    assert (dots (convertChar ch) = []) as -> by by apply convertChar_dots_nil.
    split; [|intros _; apply NoDup_nil_2].
    intros _ Hin. by destruct (Hrep ch Hin).
  - rewrite (convertChar_not_blank ch Hnb).
    destruct (classify ch) as [pattern|] eqn:Hclass.
    + apply classify_lookup in Hclass as (ds & -> & Hin%lookup_allEntries).
      pose proof repeated_entries as Hall. rewrite Forall_forall in Hall.
      apply Hall in Hin. simpl in *. tauto.
    + assert (ch ∉ repeatedDotChars) as Hnotin.
      { intros Hin. destruct (Hrep ch Hin) as [_ [? Hsome]]. congruence. }
      simpl. split; [|intros _]; (split; [done|intros _]).
      * apply (bool_decide_unpack _). by vm_compute.
      * reflexivity.
Qed.

Lemma convertToBraille_repeated_dots_witness :
  ~ NoDup [3; 4; 5; 6; 1; 4] /\ [0x2845] <> [0x2800 + bitmask [3; 4; 5; 6; 1; 4]].
Proof.
  destruct (convertToBraille_repeated_dots [51] None
              (mkPattern [51] [0x2845] [3; 4; 5; 6; 1; 4])) as [Hnodup Hcode].
  - vm_compute. left.
  - simpl in *. split.
    + intros H. apply Hnodup in H. apply H. vm_compute. do 8 right. left.
    + intros H. apply Hcode in H.
      * apply H. vm_compute. do 8 right. left.
      * not_blank.
Defined.

Lemma koreanBrailleMap_syllables :
  Forall (fun kv => test koreanPattern kv.1 = true ->
                    kv.1 ∈ ((fun c => [c]) <$> tableSyllables))
         koreanBrailleMap_entries.
Proof. compute_done. Qed.

(** X15. Of the 11172 Hangul syllables only the five of the table are
    converted: every other syllable U+AC00..U+D7A3 gets the fallback record
    with dots 2 and 6. *)
Theorem hangul_syllable_fallback c language :
  0xAC00 <= c <= 0xD7A3 -> c ∉ tableSyllables ->
  convertToBraille [c] language = [mkPattern [c] [0x2822] [2; 6]].
Proof.
  intros Hc Hnotin. rewrite single_char. f_equal.
  assert (test koreanPattern [c] = true) as Hk.
  { unfold test. cbn [existsb]. rewrite orb_false_r.
    apply koreanPattern_spec. unfold isHangulSyllable. lia. }
  rewrite convertChar_not_blank.
  - unfold classify. rewrite Hk. unfold convertKoreanChar.
    destruct (koreanBrailleMap !! [c]) as [ds|] eqn:Hlookup; [|reflexivity].
    apply elem_of_list_to_map_2 in Hlookup.
    pose proof koreanBrailleMap_syllables as Hall. rewrite Forall_forall in Hall.
    apply Hall in Hlookup; [|exact Hk]. cbn [fst] in Hlookup.
    apply list_elem_of_fmap_1 in Hlookup as (c' & [= <-] & Hin). contradiction.
  - unfold isBlank. intros [H|[H|H]]; injection H; lia.
Qed.

Lemma hangul_syllable_fallback_witness :
  convertToBraille [0xAC00] None = [mkPattern [0xAC00] [0x2822] [2; 6]].
Proof.
  apply (hangul_syllable_fallback 0xAC00 None); [lia|].
  unfold tableSyllables. rewrite !elem_of_cons, elem_of_nil. lia.
Defined.

Lemma katakana_entries :
  Forall (fun kv => forall c, kv.1 = [c] -> 0x30A0 <= c <= 0x30FF ->
                    japaneseBrailleMap !! [c - 0x60] = Some kv.2)
         japaneseBrailleMap_entries.
Proof.
  unfold japaneseBrailleMap_entries.
  repeat (apply Forall_cons; split;
          [intros c [= <-] Hc; first [lia | reflexivity] |]).
  apply Forall_nil_2.
Qed.

(** X16. Every katakana of the Japanese table has the dots of the hiragana
    0x60 below it, which the table holds too. *)
Theorem katakana_like_hiragana c ds language :
  0x30A0 <= c <= 0x30FF -> japaneseBrailleMap !! [c] = Some ds ->
  dots <$> convertToBraille [c] language = [ds]
  /\ dots <$> convertToBraille [c - 0x60] language = [ds].
Proof.
  intros Hc Hlookup.
  assert (japaneseBrailleMap !! [c - 0x60] = Some ds) as Hhira.
  { pose proof katakana_entries as Hall. rewrite Forall_forall in Hall.
    apply elem_of_list_to_map_2 in Hlookup as Hin.
    by apply (Hall _ Hin c). }
  assert (forall k, 0x3040 <= k <= 0x30FF -> japaneseBrailleMap !! [k] = Some ds ->
            dots (convertChar [k]) = ds) as Hconv.
  { intros k Hk Hl.
    assert (test koreanPattern [k] = false) as Hkor by class_miss.
    assert (test japanesePattern [k] = true) as Hjap.
    { unfold test. cbn [existsb]. rewrite orb_false_r.
      apply japanesePattern_spec. unfold isKana. lia. }
    rewrite convertChar_not_blank.
    - unfold classify. rewrite Hkor, Hjap. unfold convertJapaneseChar. by rewrite Hl.
    - unfold isBlank. intros [H|[H|H]]; injection H; lia. }
  rewrite !single_char. cbn [fmap list_fmap].
  rewrite (Hconv c), (Hconv (c - 0x60)) by (assumption || lia). done.
Qed.

Lemma katakana_like_hiragana_witness :
  dots <$> convertToBraille [0x30AB] None = [[1; 6]]
  /\ dots <$> convertToBraille [0x304B] None = [[1; 6]].
Proof.
  apply (katakana_like_hiragana 0x30AB [1; 6] None); [lia | reflexivity].
Defined.

Lemma class_codes_distinct :
  NoDup ((fun c => unicode (convertChar [c])) <$> seqZ 97 26)
  /\ NoDup ((fun c => unicode (convertChar [c])) <$> seqZ 65 26)
  /\ NoDup ((fun c => unicode (convertChar [c])) <$> seqZ 48 10).
Proof. compute_done. Qed.

Lemma NoDup_fmap_eq {A B} (f : A -> B) (l : list A) x y :
  NoDup (f <$> l) -> x ∈ l -> y ∈ l -> f x = f y -> x = y.
Proof.
  induction l as [|a l IH]; [by intros _ ?%elem_of_nil|].
  rewrite fmap_cons, NoDup_cons, !elem_of_cons.
  intros [Hnotin Hnd] [->|Hx] [->|Hy] Heq; auto.
  - destruct Hnotin. rewrite Heq. by apply list_elem_of_fmap_2.
  - destruct Hnotin. rewrite <- Heq. by apply list_elem_of_fmap_2.
Qed.

(** X17. Within the lowercase letters, within the uppercase letters and
    within the digits, different characters get different code points. *)
Theorem class_code_points_distinct c1 c2 language1 language2 :
  sameClass c1 c2 ->
  unicode <$> convertToBraille [c1] language1
    = unicode <$> convertToBraille [c2] language2 ->
  c1 = c2.
Proof.
  rewrite !single_char. cbn [fmap list_fmap]. intros Hclass [= Heq].
  destruct class_codes_distinct as (Hlower & Hupper & Hdigit).
  destruct Hclass as [[H1 H2]|[[H1 H2]|[H1 H2]]].
  - apply (NoDup_fmap_eq _ _ c1 c2 Hlower); rewrite ?elem_of_seqZ; (lia || done).
  - apply (NoDup_fmap_eq _ _ c1 c2 Hupper); rewrite ?elem_of_seqZ; (lia || done).
  - apply (NoDup_fmap_eq _ _ c1 c2 Hdigit); rewrite ?elem_of_seqZ; (lia || done).
Qed.

Lemma class_code_points_distinct_witness : 85 = 85.
Proof.
  apply (class_code_points_distinct 85 85 None (Some english)).
  - unfold sameClass. lia.
  - reflexivity.
Defined.

Lemma capitalTwins_table :
  Forall (fun cl => unicode (convertChar [cl.1]) = unicode (convertChar [cl.2]))
         capitalTwins.
Proof. compute_done. Qed.

(** X18. Across the classes the code points collide: each of the capitals
    J, K, L, M, N, O gets the code point of the lowercase w, u, v, x, y, z,
    so the Braille text does not tell them apart. *)
Theorem capital_twin_same_code_point C l language :
  (C, l) ∈ capitalTwins ->
  unicode <$> convertToBraille [C] language = unicode <$> convertToBraille [l] language.
Proof.
  intros Hin. pose proof capitalTwins_table as Hall. rewrite Forall_forall in Hall.
  rewrite !single_char. cbn [fmap list_fmap]. f_equal. by apply (Hall _ Hin).
Qed.

Lemma capital_twin_same_code_point_witness :
  unicode <$> convertToBraille [75] None = unicode <$> convertToBraille [117] None.
Proof.
  apply capital_twin_same_code_point. vm_compute. right. left.
Defined.

(** * splitIntoLines *)

Lemma segments_snoc patterns p :
  exists l c,
    segments patterns = l ++ [c]
    /\ segments (patterns ++ [p])
       = if decide (isNewline p) then l ++ [c; []] else l ++ [c ++ [p]].
Proof.
  induction patterns as [|q patterns (l & c & Hseg & Hsnoc)].
  - exists [], []. split; [reflexivity|]. simpl. by destruct (decide (isNewline p)).
  - cbn [app segments]. rewrite Hsnoc, Hseg.
    destruct (decide (isNewline q)) as [Hq|Hq].
    + exists ([] :: l), c. split; [reflexivity|]. by destruct (decide (isNewline p)).
    + destruct l as [|s l].
      * exists [], (q :: c). split; [reflexivity|]. by destruct (decide (isNewline p)).
      * exists ((q :: s) :: l), c. split; [reflexivity|].
        by destruct (decide (isNewline p)).
Qed.

Lemma segments_concat patterns :
  concat (segments patterns) = filter (fun p => ~ isNewline p) patterns.
Proof.
  induction patterns as [|p patterns IH]; [reflexivity|].
  cbn [segments]. rewrite filter_cons.
  destruct (decide (isNewline p)) as [Hp|Hp].
  - rewrite decide_False by tauto. exact IH.
  - rewrite decide_True by assumption. rewrite <- IH.
    by destruct (segments patterns).
Qed.

Lemma segments_no_newline patterns :
  Forall (Forall (fun p => ~ isNewline p)) (segments patterns).
Proof.
  induction patterns as [|p patterns IH]; [by repeat constructor|].
  cbn [segments]. destruct (decide (isNewline p)) as [Hp|Hp].
  - by constructor.
  - destruct (segments patterns) as [|s ss]; [by repeat constructor|].
    apply Forall_cons in IH as [Hs Hss]. by repeat constructor.
Qed.

Lemma segments_length patterns :
  length (segments patterns) = S (length (filter isNewline patterns)).
Proof.
  induction patterns as [|p patterns IH]; [reflexivity|].
  cbn [segments]. rewrite filter_cons.
  destruct (decide (isNewline p)) as [Hp|Hp]; simpl.
  - by rewrite IH.
  - rewrite <- IH. by destruct (segments patterns).
Qed.

Lemma segments_all patterns :
  Forall (fun p => ~ isNewline p) patterns -> segments patterns = [patterns].
Proof.
  induction 1 as [|p patterns Hp _ IH]; [reflexivity|].
  cbn [segments]. by rewrite decide_False, IH by assumption.
Qed.

(** The last segment is empty exactly when no line is open at the end. *)
Lemma segments_last patterns l c :
  segments patterns = l ++ [c] -> c = [] <-> openLine patterns = 0%nat.
Proof.
  unfold openLine.
  destruct (decide (patterns = [])) as [->|Hne].
  - simpl. intros Heq. destruct l as [|? [|? ?]]; simplify_eq/=; done.
  - apply last_is_Some in Hne as [p Hlast]. rewrite Hlast.
    apply last_Some in Hlast as [front ->].
    destruct (segments_snoc front p) as (l0 & c0 & _ & Hsnoc). rewrite Hsnoc.
    destruct (decide (isNewline p)); intros Heq.
    + change (l0 ++ [c0; []]) with (l0 ++ [c0] ++ [[]]) in Heq.
      rewrite app_assoc in Heq. apply app_inj_tail in Heq as [_ <-]. done.
    + apply app_inj_tail in Heq as [_ <-].
      split; [intros H; destruct c0; discriminate H | done].
Qed.

Lemma splitLoop patterns lines currentLine :
  exists s ss,
    segments patterns = s :: ss
    /\ let '(lines', currentLine') := fold_left splitStep patterns (lines, currentLine) in
       lines' ++ [currentLine'] = lines ++ (currentLine ++ s) :: ss.
Proof.
  revert lines currentLine.
  induction patterns as [|p patterns IH]; intros lines currentLine.
  - exists [], []. split; [reflexivity|]. simpl. by rewrite app_nil_r.
  - cbn [fold_left segments]. unfold splitStep at 2.
    case_bool_decide as Hp.
    + destruct (IH (lines ++ [currentLine]) []) as (s & ss & Hseg & Hloop).
      exists [], (s :: ss). rewrite decide_True by exact Hp.
      split; [by rewrite Hseg|].
      destruct (fold_left splitStep patterns (lines ++ [currentLine], [])).
      rewrite Hloop, app_nil_r, <- app_assoc. reflexivity.
    + destruct (IH lines (currentLine ++ [p])) as (s & ss & Hseg & Hloop).
      exists (p :: s), ss. rewrite decide_False by exact Hp.
      split; [by rewrite Hseg|].
      destruct (fold_left splitStep patterns (lines, currentLine ++ [p])).
      rewrite Hloop, <- app_assoc. reflexivity.
Qed.

(** [splitIntoLines] against [segments]. *)
Lemma splitIntoLines_segments patterns :
  exists l c,
    segments patterns = l ++ [c]
    /\ splitIntoLines patterns = if decide (c = [] /\ l <> []) then l else l ++ [c].
Proof.
  destruct (splitLoop patterns [] []) as (s & ss & Hseg & Hloop).
  unfold splitIntoLines.
  destruct (fold_left splitStep patterns ([], [])) as [lines currentLine].
  exists lines, currentLine. simpl in Hloop. split; [by rewrite Hseg, Hloop|].
  destruct currentLine as [|p currentLine], lines as [|line lines];
    case_decide as Hcase; simpl; try reflexivity.
  - destruct Hcase as [_ Hne]. by destruct Hne.
  - destruct Hcase. by split.
  - by destruct Hcase.
  - by destruct Hcase.
Qed.

Lemma elem_of_concat {A} (x : A) (ls : list (list A)) (l : list A) :
  x ∈ l -> l ∈ ls -> x ∈ concat ls.
Proof.
  intros Hx. induction 1 as [l ls|l l' ls _ IH]; simpl; rewrite elem_of_app; auto.
Qed.

Lemma convertChar_newline ch :
  char (convertChar ch) = [10] <-> unicode (convertChar ch) = [10].
Proof.
  rewrite convertChar_char.
  destruct (decide (isBlank ch)) as [Hblank|Hnb].
  - destruct Hblank as [-> | [-> | ->]]; simpl; split; done.
  - split.
    + intros ->. destruct Hnb. unfold isBlank. auto.
    + rewrite (convertChar_not_blank ch Hnb).
      destruct (classify ch) as [pattern|] eqn:Hclass; [|discriminate].
      apply classify_Some_valid in Hclass as (_ & -> & _ & Hsum).
      destruct (dotsToUnicode_block _ Hsum) as (cp & -> & Hcp).
      intros [= ->]. lia.
Qed.

(** X19. [splitIntoLines] always returns at least one line; no line holds a
    newline record; and the lines, one after the other, are the records
    that are not newline records, in their order. *)
Theorem splitIntoLines_lines patterns :
  splitIntoLines patterns <> []
  /\ Forall (Forall (fun p => ~ isNewline p)) (splitIntoLines patterns)
  /\ concat (splitIntoLines patterns) = filter (fun p => ~ isNewline p) patterns.
Proof.
  destruct (splitIntoLines_segments patterns) as (l & c & Hseg & ->).
  pose proof (segments_no_newline patterns) as Hnn.
  pose proof (segments_concat patterns) as Hcat.
  rewrite Hseg in Hnn, Hcat.
  case_decide as Hcase.
  - destruct Hcase as [-> Hne].
    rewrite concat_app in Hcat. simpl in Hcat. rewrite app_nil_r in Hcat.
    apply Forall_app in Hnn as [Hl _]. done.
  - split_and!; [by destruct l | done | done].
Qed.

(** X20. [splitIntoLines] is the split at the newline records with an empty
    last segment dropped, unless it is the only one: a text that ends in a
    newline does not get an empty line after it. *)
Theorem splitIntoLines_refines_segments patterns :
  exists l c,
    segments patterns = l ++ [c]
    /\ splitIntoLines patterns = if decide (c = [] /\ l <> []) then l else l ++ [c].
Proof. apply splitIntoLines_segments. Qed.

(** X21. The number of lines is the number of newline records, plus one
    when the last record is not a newline record, and at least one. *)
Theorem splitIntoLines_length patterns :
  length (splitIntoLines patterns)
    = Nat.max 1 (length (filter isNewline patterns) + openLine patterns).
Proof.
  destruct (splitIntoLines_segments patterns) as (l & c & Hseg & ->).
  pose proof (segments_length patterns) as Hlen.
  pose proof (segments_last patterns l c Hseg) as Hlast.
  rewrite Hseg, length_app in Hlen. simpl in Hlen.
  assert (openLine patterns = 0 \/ openLine patterns = 1)%nat as Hopen.
  { unfold openLine. destruct (last patterns); [case_decide|]; auto. }
  case_decide as Hcase.
  - destruct Hcase as [Hc Hne]. apply Hlast in Hc.
    destruct l; [done|]. simpl in *. lia.
  - rewrite length_app. simpl.
    destruct (decide (c = [])) as [Hc|Hc].
    + assert (l = []) as -> by (destruct l; [done | destruct Hcase; done]).
      apply Hlast in Hc. simpl in *. lia.
    + assert (openLine patterns = 1%nat) as Hone by (destruct Hopen; tauto).
      lia.
Qed.

(** X22. Records without a newline record form one line, the records
    themselves; no records give one empty line. *)
Theorem splitIntoLines_single_line patterns :
  Forall (fun p => ~ isNewline p) patterns -> splitIntoLines patterns = [patterns].
Proof.
  intros Hall. destruct (splitIntoLines_segments patterns) as (l & c & Hseg & ->).
  rewrite (segments_all patterns Hall) in Hseg.
  destruct l as [|? [|? ?]]; simplify_eq/=.
  by rewrite decide_False by (intros [_ ?]; done).
Qed.

Lemma splitIntoLines_single_line_witness :
  splitIntoLines (convertToBraille [72; 105] None) = [convertToBraille [72; 105] None].
Proof.
  apply splitIntoLines_single_line.
  vm_compute. repeat constructor; discriminate.
Defined.

(** X23. One newline record at the end does not open a line: after records
    that do not end in a newline record it changes nothing. *)
Theorem splitIntoLines_trailing_newline patterns nl :
  isNewline nl -> (forall p, last patterns = Some p -> ~ isNewline p) ->
  splitIntoLines (patterns ++ [nl]) = splitIntoLines patterns.
Proof.
  intros Hnl Hend.
  destruct (splitIntoLines_segments patterns) as (l & c & Hseg & ->).
  destruct (splitIntoLines_segments (patterns ++ [nl])) as (l' & c' & Hseg' & ->).
  destruct (segments_snoc patterns nl) as (l0 & c0 & Hseg0 & Hsnoc).
  rewrite decide_True in Hsnoc by exact Hnl.
  rewrite Hseg in Hseg0. apply app_inj_tail in Hseg0 as [<- <-].
  rewrite Hseg' in Hsnoc.
  change (l ++ [c; []]) with (l ++ [c] ++ [[]]) in Hsnoc. rewrite app_assoc in Hsnoc.
  apply app_inj_tail in Hsnoc as [-> ->].
  rewrite decide_True by (split; [done | by destruct l]).
  case_decide as Hcase; [|reflexivity].
  destruct Hcase as [Hc Hne].
  apply (segments_last patterns l c Hseg) in Hc. unfold openLine in Hc.
  destruct (last patterns) as [p|] eqn:Hlast.
  - rewrite decide_False in Hc by by apply Hend. discriminate Hc.
  - apply last_None in Hlast as ->. by destruct l as [|? [|? ?]].
Qed.

Lemma splitIntoLines_trailing_newline_witness :
  splitIntoLines (convertToBraille [97] None ++ [mkPattern [10] [10] []])
    = splitIntoLines (convertToBraille [97] None).
Proof.
  apply splitIntoLines_trailing_newline.
  - reflexivity.
  - vm_compute. intros p [= <-]. discriminate.
Defined.

(** X24. A text without the newline code unit is laid out as one line
    holding all its records. *)
Theorem splitIntoLines_convertToBraille_one_line text language :
  10 ∉ text ->
  splitIntoLines (convertToBraille text language) = [convertToBraille text language].
Proof.
  intros Hnl. apply splitIntoLines_single_line.
  rewrite convertToBraille_fmap, Forall_fmap, Forall_forall.
  intros ch Hch. unfold isNewline. simpl. rewrite convertChar_char. intros ->.
  apply Hnl. rewrite <- (chars_concat text).
  apply (elem_of_concat 10 (chars text) [10]); [left | exact Hch].
Qed.

Lemma splitIntoLines_convertToBraille_one_line_witness :
  splitIntoLines (convertToBraille [97; 32; 98] None) = [convertToBraille [97; 32; 98] None].
Proof.
  apply splitIntoLines_convertToBraille_one_line.
  rewrite !elem_of_cons, elem_of_nil. lia.
Defined.

(** X25. In the output of [convertToBraille] the records split on are those
    shown as a newline: the [char] of a record is the newline exactly when
    its code point is. *)
Theorem convertToBraille_newline_records text language r :
  r ∈ convertToBraille text language -> isNewline r <-> unicode r = [10].
Proof.
  intros (ch & -> & _)%elem_of_convertToBraille. apply convertChar_newline.
Qed.

Lemma convertToBraille_newline_records_witness :
  isNewline (mkPattern [10] [10] []) <-> [10] = [10].
Proof.
  apply (convertToBraille_newline_records [97; 10] None (mkPattern [10] [10] [])).
  vm_compute. right. left.
Defined.

(** * The place of a dot in the cell *)

(** X26. The eight dot numbers have eight different places in the two
    columns and four rows of the cell: dots 1 to 6 run down the left column
    and then the right one, dots 7 and 8 are the fourth row. *)
Theorem dotPosition_grid d :
  validDot d ->
  dotPosition d = (if decide (d <= 6) then ((d - 1) / 3, (d - 1) mod 3) else (d - 7, 3))
  /\ 0 <= (dotPosition d).1 <= 1 /\ 0 <= (dotPosition d).2 <= 3
  /\ forall d', validDot d' -> dotPosition d' = dotPosition d -> d' = d.
Proof.
  unfold validDot. intros Hd.
  assert (d = 1 \/ d = 2 \/ d = 3 \/ d = 4 \/ d = 5 \/ d = 6 \/ d = 7 \/ d = 8)
    as Hcases by lia.
  repeat destruct Hcases as [->|Hcases]; try subst d;
    (split_and!; [reflexivity | simpl; lia | simpl; lia | simpl; lia | simpl; lia |];
     intros d' Hd' Heq;
     assert (d' = 1 \/ d' = 2 \/ d' = 3 \/ d' = 4 \/ d' = 5 \/ d' = 6 \/ d' = 7 \/ d' = 8)
       as Hcases' by lia;
     repeat destruct Hcases' as [->|Hcases']; try subst d';
     first [reflexivity | discriminate Heq]).
Qed.

Lemma dotPosition_grid_witness : dotPosition 6 = (1, 2).
Proof. apply (dotPosition_grid 6). unfold validDot. lia. Defined.

(** * Characters outside the Basic Multilingual Plane *)

(** A character walked by the loop is one code unit or a surrogate pair. *)
Lemma chars_shape text :
  Forall (fun ch => (exists c, ch = [c])
                    \/ (exists c d, ch = [c; d] /\ isLeadSurrogate c = true
                                    /\ isTrailSurrogate d = true))
         (chars text).
Proof.
  assert (forall n (t : jsstring), (length t <= n)%nat ->
            Forall (fun ch => (exists c, ch = [c])
                              \/ (exists c d, ch = [c; d] /\ isLeadSurrogate c = true
                                              /\ isTrailSurrogate d = true))
                   (chars t)) as Hn.
  { induction n as [|n IH]; intros [|c [|d rest]] Hlen;
      try (simpl in Hlen; lia); try (by repeat constructor; eauto).
    cbn [chars].
    destruct (isLeadSurrogate c && isTrailSurrogate d) eqn:Hpair.
    - apply andb_true_iff in Hpair as [Hc Hd].
      constructor; [right; eauto|]. apply IH. simpl in Hlen. lia.
    - constructor; [left; eauto|]. apply (IH (d :: rest)). simpl in *. lia. }
  by apply (Hn (length text)).
Qed.

Lemma surrogate_no_class c :
  isSurrogate c ->
  koreanPattern c = false /\ japanesePattern c = false /\ alnumPattern c = false.
Proof.
  unfold isSurrogate, koreanPattern, japanesePattern, alnumPattern, inRange.
  intros Hc. split_and!; apply not_true_is_false;
    rewrite ?orb_true_iff, ?andb_true_iff, ?Z.leb_le; lia.
Qed.

Lemma lead_trail_surrogate c d :
  isLeadSurrogate c = true -> isTrailSurrogate d = true ->
  isSurrogate c /\ isSurrogate d.
Proof.
  unfold isLeadSurrogate, isTrailSurrogate, isSurrogate.
  rewrite !andb_true_iff, !Z.leb_le. lia.
Qed.

(** X27. A character written with surrogate code units (any character
    outside the Basic Multilingual Plane, such as an emoji, or a lone
    surrogate) always gets the fallback record with dots 2 and 6. *)
Theorem convertToBraille_surrogate_fallback text language r :
  r ∈ convertToBraille text language -> Exists isSurrogate (char r) ->
  unicode r = [0x2822] /\ dots r = [2; 6].
Proof.
  intros (ch & -> & Hch)%elem_of_convertToBraille.
  rewrite convertChar_char. intros Hsur.
  pose proof (chars_shape text) as Hshape. rewrite Forall_forall in Hshape.
  assert (~ isBlank ch) as Hnb.
  { unfold isBlank. intros [-> | [-> | ->]]; apply Exists_cons in Hsur as [Hs|Hs];
      try (by apply Exists_nil in Hs); unfold isSurrogate in Hs; lia. }
  assert (classify ch = None) as Hclass.
  { unfold classify, test.
    destruct (Hshape ch Hch) as [(c & ->)|(c & d & -> & Hc & Hd)]; cbn [existsb].
    - apply Exists_cons in Hsur as [Hs|Hs]; [|by apply Exists_nil in Hs].
      destruct (surrogate_no_class c Hs) as (-> & -> & ->). cbn [orb].
      unfold convertPunctuation.
      destruct (punctuationMap !! [c]) as [ds|] eqn:Hp; [|reflexivity].
      apply punctuationMap_ascii in Hp as (c' & [= <-] & Hc').
      unfold isSurrogate in Hs. lia.
    - destruct (lead_trail_surrogate c d Hc Hd) as [Hsc Hsd].
      destruct (surrogate_no_class c Hsc) as (-> & -> & ->).
      destruct (surrogate_no_class d Hsd) as (-> & -> & ->). cbn [orb].
      unfold convertPunctuation.
      destruct (punctuationMap !! [c; d]) as [ds|] eqn:Hp; [|reflexivity].
      apply punctuationMap_ascii in Hp as (c' & [=] & _). }
  rewrite (convertChar_not_blank ch Hnb), Hclass. split; reflexivity.
Qed.

Lemma convertToBraille_surrogate_fallback_witness :
  [0x2822] = [0x2822] /\ [2; 6] = [2; 6].
Proof.
  apply (convertToBraille_surrogate_fallback [97; 0xD83D; 0xDE00] None
           (mkPattern [0xD83D; 0xDE00] [0x2822] [2; 6])).
  - vm_compute. right. left.
  - left. unfold isSurrogate. lia.
Defined.
